(** * Verification of the build-directory scanner of hawking

    Shallow embedding of [getDirectorySize], [isRustProject] and
    [findBuildDirectories] of [src/index.ts], and of [findNodeModules] of the
    earlier version of the tool ([src/unnamed/part_000]).

    The file system is a finite tree.  A directory entry is either a
    directory, whose [readdir] either succeeds with the list of its named
    children in listing order or fails (permission denied, vanished, ...), or
    a non-directory entry (regular file, symlink, ...), whose [fs.stat] either
    reports a byte length or fails.  Paths are lists of path segments, and
    [path.join p name] appends a segment, so that [path.dirname] of a joined
    path is the directory that was listed.

    The effects of the scanner are explicit state passing: the shared
    [results] array that every recursive call pushes into, the messages
    written by [console.error], and, as an observation of the walk, the
    directories that [findBuildDirectories] lists with [readdir]. *)

From Stdlib Require Import String Ascii List Bool Arith Lia.
Import ListNotations.
Open Scope string_scope.

(** ** File system *)

#[local] Set Warnings "-register-all".

Inductive node : Type :=
| NFile (stat : option nat)
| NDir (listing : option (list (string * node))).

Definition path := list string.

(** [path.join(dir, name)] *)
Definition join (p : path) (name : string) : path := app p [name].

(** [name.startsWith(".")] *)
Definition startsWithDot (s : string) : bool :=
  match s with
  | String c _ => Ascii.eqb c "."%char
  | EmptyString => false
  end.

(** Lines written by [console.error]: [Error reading directory ...] from
    [getDirectorySize] and [Error searching in ...] from the scanner. *)
Inductive logline : Type :=
| ErrReading (p : path)
| ErrSearching (p : path).

(** ** [getDirectorySize]

    [let size = 0; try { for (file of readdir(dirPath)) ... } catch { log }
    return size]: a failing [readdir], or a failing [stat] in the middle of
    the loop, ends the loop; the [catch] logs and the size accumulated so far
    is returned.  Recursive calls catch their own errors and never throw. *)
Fixpoint getDirectorySize (dirPath : path) (n : node) (lg : list logline)
  : nat * list logline :=
  match n with
  | NDir (Some files) =>
      (fix loop (files : list (string * node)) (size : nat)
           (lg : list logline) : nat * list logline :=
         match files with
         | [] => (size, lg)
         | (name, child) :: rest =>
             let filePath := join dirPath name in
             match child with
             | NDir _ =>
                 let '(s, lg') := getDirectorySize filePath child lg in
                 loop rest (size + s) lg'
             | NFile (Some s) => loop rest (size + s) lg
             | NFile None => (size, app lg [ErrReading dirPath])
             end
         end) files 0 lg
  | _ => (0, app lg [ErrReading dirPath])
  end.

(** ** [isRustProject]: [readdir(dirPath)] then [files.includes("Cargo.toml")];
    a failing [readdir] gives [false]. *)
Definition isRustProject (dir : node) : bool :=
  match dir with
  | NDir (Some files) => existsb (fun e => String.eqb (fst e) "Cargo.toml") files
  | _ => false
  end.

(** ** [findBuildDirectories] *)

Inductive ptype : Type := TNode | TRust.

(** [ProjectInfo]; the display-only field [nice_path] (the path with the
    home directory replaced by [~]) is left out. *)
Record ProjectInfo : Type := mkProjectInfo {
  pi_path : path;
  pi_size : nat;
  pi_type : ptype
}.

Record St : Type := mkSt {
  results : list ProjectInfo;  (** the shared [results] array *)
  visited : list path;         (** directories listed by the scanner *)
  log : list logline           (** [console.error] output *)
}.

Definition push (r : ProjectInfo) (st : St) : St :=
  mkSt (app (results st) [r]) (visited st) (log st).

Definition set_log (lg : list logline) (st : St) : St :=
  mkSt (results st) (visited st) lg.

Definition add_visit (p : path) (st : St) : St :=
  mkSt (results st) (app (visited st) [p]) (log st).

Definition add_log (l : logline) (st : St) : St :=
  mkSt (results st) (visited st) (app (log st) [l]).

(** A match: [getDirectorySize(fullPath)] then
    [results.push({path: dirname(fullPath), size, type})]. *)
Definition record_match (startPath : path) (fullPath : path) (child : node)
    (t : ptype) (st : St) : St :=
  let '(size, lg) := getDirectorySize fullPath child (log st) in
  push (mkProjectInfo startPath size t) (set_log lg st).

Fixpoint findBuildDirectories (startPath : path) (n : node) (st : St) : St :=
  match n with
  | NDir (Some files) =>
      (fix loop (files : list (string * node)) (st : St) : St :=
         match files with
         | [] => st
         | (name, child) :: rest =>
             let fullPath := join startPath name in
             match child with
             | NDir _ =>
                 if String.eqb name "node_modules" then
                   loop rest (record_match startPath fullPath child TNode st)
                 else if String.eqb name "target" && isRustProject n then
                   loop rest (record_match startPath fullPath child TRust st)
                 else if negb (startsWithDot name)
                         && negb (String.eqb name "node_modules")
                         && negb (String.eqb name "target") then
                   loop rest (findBuildDirectories fullPath child st)
                 else loop rest st
             | NFile _ => loop rest st
             end
         end) files (add_visit startPath st)
  | _ => add_log (ErrSearching startPath) st
  end.

Definition emptySt : St := mkSt [] [] [].

(** [findBuildDirectories(startPath)] with the default empty [results]. *)
Definition scan (startPath : path) (root : node) : list ProjectInfo :=
  results (findBuildDirectories startPath root emptySt).

(** ** The earlier version: [findNodeModules] of [src/unnamed/part_000]

    Its [getDirectorySize] is character for character the one above. *)
Module Earlier.

Record ProjectInfo : Type := mkProjectInfo {
  pi_path : path;
  pi_size : nat
}.

Record St : Type := mkSt {
  results : list ProjectInfo;
  visited : list path;
  log : list logline
}.

Definition record_match (startPath : path) (fullPath : path) (child : node)
    (st : St) : St :=
  let '(size, lg) := getDirectorySize fullPath child (log st) in
  mkSt (app (results st) [mkProjectInfo startPath size]) (visited st) lg.

Fixpoint findNodeModules (startPath : path) (n : node) (st : St) : St :=
  match n with
  | NDir (Some files) =>
      (fix loop (files : list (string * node)) (st : St) : St :=
         match files with
         | [] => st
         | (name, child) :: rest =>
             let fullPath := join startPath name in
             match child with
             | NDir _ =>
                 if String.eqb name "node_modules" then
                   loop rest (record_match startPath fullPath child st)
                 else if negb (startsWithDot name)
                         && negb (String.eqb name "node_modules") then
                   loop rest (findNodeModules fullPath child st)
                 else loop rest st
             | NFile _ => loop rest st
             end
         end) files (mkSt (results st) (app (visited st) [startPath]) (log st))
  | _ => mkSt (results st) (visited st) (app (log st) [ErrSearching startPath])
  end.

Definition emptySt : St := mkSt [] [] [].

End Earlier.

(** ** Trees *)

(** [dir_at n q l]: following the path [q] from [n] through directory
    entries reaches a directory whose listing is [l]. *)
Inductive dir_at : node -> path -> list (string * node) -> Prop :=
| dir_here l : dir_at (NDir (Some l)) [] l
| dir_below l name c q l' :
    In (name, c) l -> dir_at c q l' -> dir_at (NDir (Some l)) (name :: q) l'.

Fixpoint nodup_names (names : list string) : bool :=
  match names with
  | [] => true
  | s :: r => negb (existsb (String.eqb s) r) && nodup_names r
  end.

(** A well-formed tree: the names of every directory listing are distinct,
    as they are in a real file system. *)
Fixpoint wf (n : node) : bool :=
  match n with
  | NDir (Some files) =>
      nodup_names (map fst files)
      && (fix all (files : list (string * node)) : bool :=
            match files with
            | [] => true
            | (_, c) :: r => wf c && all r
            end) files
  | _ => true
  end.

(** The artifact directory name bound to each project type
    (cf. [deleteBuildDirectory]). *)
Definition artifact_name (t : ptype) : string :=
  match t with TNode => "node_modules" | TRust => "target" end.

(** Segments the scanner recurses through. *)
Definition ordinary (name : string) : bool :=
  negb (startsWithDot name) && negb (String.eqb name "node_modules")
  && negb (String.eqb name "target").

Definition key (r : ProjectInfo) : path * ptype := (pi_path r, pi_type r).

(** ** Loop bodies, named for reasoning *)

Definition gds_loop (dirPath : path) :=
  fix loop (files : list (string * node)) (size : nat)
      (lg : list logline) : nat * list logline :=
    match files with
    | [] => (size, lg)
    | (name, child) :: rest =>
        let filePath := join dirPath name in
        match child with
        | NDir _ =>
            let '(s, lg') := getDirectorySize filePath child lg in
            loop rest (size + s) lg'
        | NFile (Some s) => loop rest (size + s) lg
        | NFile None => (size, app lg [ErrReading dirPath])
        end
    end.

(** One iteration of the [for (const file of files)] loop of
    [findBuildDirectories] in directory [n] at [startPath]. *)
Definition fbd_step (startPath : path) (n : node) (e : string * node)
    (st : St) : St :=
  let '(name, child) := e in
  let fullPath := join startPath name in
  match child with
  | NDir _ =>
      if String.eqb name "node_modules" then
        record_match startPath fullPath child TNode st
      else if String.eqb name "target" && isRustProject n then
        record_match startPath fullPath child TRust st
      else if negb (startsWithDot name)
              && negb (String.eqb name "node_modules")
              && negb (String.eqb name "target") then
        findBuildDirectories fullPath child st
      else st
  | NFile _ => st
  end.

Definition st_app (a b : St) : St :=
  mkSt (app (results a) (results b)) (app (visited a) (visited b))
       (app (log a) (log b)).

(** Structural induction on trees, with the hypothesis on every child. *)
Fixpoint node_ind' (P : node -> Prop)
    (Hf : forall s, P (NFile s)) (Hn : P (NDir None))
    (Hd : forall l, Forall (fun e => P (snd e)) l -> P (NDir (Some l)))
    (n : node) {struct n} : P n :=
  match n with
  | NFile s => Hf s
  | NDir None => Hn
  | NDir (Some l) =>
      Hd l ((fix go (l : list (string * node))
               : Forall (fun e => P (snd e)) l :=
               match l with
               | [] => Forall_nil _
               | (nm, c) :: r =>
                   @Forall_cons _ (fun e => P (snd e)) (nm, c) r
                     (node_ind' P Hf Hn Hd c) (go r)
               end) l)
  end.

(** [dsize n]: the size [getDirectorySize] computes for [n]. *)
Definition dsize (n : node) : nat := fst (getDirectorySize [] n []).

Definition fbd_loop (startPath : path) (n : node) :=
  fix loop (files : list (string * node)) (st : St) : St :=
    match files with
    | [] => st
    | (name, child) :: rest =>
        let fullPath := join startPath name in
        match child with
        | NDir _ =>
            if String.eqb name "node_modules" then
              loop rest (record_match startPath fullPath child TNode st)
            else if String.eqb name "target" && isRustProject n then
              loop rest (record_match startPath fullPath child TRust st)
            else if negb (startsWithDot name)
                    && negb (String.eqb name "node_modules")
                    && negb (String.eqb name "target") then
              loop rest (findBuildDirectories fullPath child st)
            else loop rest st
        | NFile _ => loop rest st
        end
    end.

(** ** Auxiliary definitions *)

Definition pre_line (sp : path) (l : logline) : logline :=
  match l with
  | ErrReading p => ErrReading (app sp p)
  | ErrSearching p => ErrSearching (app sp p)
  end.

(** The scanner's final state, and the directories it lists. *)
Definition scan_state (startPath : path) (root : node) : St :=
  findBuildDirectories startPath root emptySt.

Definition walk (startPath : path) (root : node) : list path :=
  visited (scan_state startPath root).

Definition is_prefix (a v : path) : Prop := exists rest, v = app a rest.

(** A Rust project that also has a [node_modules] directory. *)
Definition mixed_project : node :=
  NDir (Some [("Cargo.toml", NFile (Some 120));
              ("node_modules", NDir (Some [("a.js", NFile (Some 7))]));
              ("target", NDir (Some [("app", NFile (Some 900))]))]).

(** What each immediate child adds to its directory's size: the recursive
    size of a directory, the [stat] size of anything else. *)
Definition child_size (p : path) (e : string * node) : nat :=
  match e with
  | (nm, NDir x) => fst (getDirectorySize (join p nm) (NDir x) [])
  | (_, NFile (Some s)) => s
  | (_, NFile None) => 0
  end.

Definition stat_ok (e : string * node) : Prop := snd e <> NFile None.

Definition size_example : node :=
  NDir (Some [("a.txt", NFile (Some 100)); ("b.txt", NFile (Some 250));
              ("sub", NDir (Some [("c.txt", NFile (Some 50))]))]).

Definition projA : node :=
  NDir (Some [("node_modules",
               NDir (Some [("pkg", NDir (Some [("index.js", NFile (Some 10))]))]))]).

Definition projB (cargo_swap : bool) (cargo : option nat) : node :=
  let cargo_toml := ("Cargo.toml", NFile cargo) in
  let target := ("target", NDir (Some [("app", NFile (Some 20))])) in
  NDir (Some (if cargo_swap then [target; cargo_toml] else [cargo_toml; target])).

(** [root] holding [projA] and [projB], in either listing order. *)
Definition e2e_root (swap cargo_swap : bool) (cargo : option nat) : node :=
  let a := ("projA", projA) in
  let b := ("projB", projB cargo_swap cargo) in
  NDir (Some (if swap then [b; a] else [a; b])).

Definition fnm_loop (startPath : path) :=
  fix loop (files : list (string * node)) (st : Earlier.St) : Earlier.St :=
    match files with
    | [] => st
    | (name, child) :: rest =>
        let fullPath := join startPath name in
        match child with
        | NDir _ =>
            if String.eqb name "node_modules" then
              loop rest (Earlier.record_match startPath fullPath child st)
            else if negb (startsWithDot name)
                    && negb (String.eqb name "node_modules") then
              loop rest (Earlier.findNodeModules fullPath child st)
            else loop rest st
        | NFile _ => loop rest st
        end
    end.

Definition proj (r : ProjectInfo) : path * nat := (pi_path r, pi_size r).

Definition proj_earlier (r : Earlier.ProjectInfo) : path * nat :=
  (Earlier.pi_path r, Earlier.pi_size r).

(** The two states agree on the listed directories, the log, and the
    matches projected to (path, size). *)
Definition related (st : St) (st' : Earlier.St) : Prop :=
  map proj (results st) = map proj_earlier (Earlier.results st')
  /\ visited st = Earlier.visited st' /\ log st = Earlier.log st'.

Definition no_target (n : node) : Prop :=
  forall q l x, dir_at n q l -> ~ In ("target", NDir x) l.

Definition pre_info (sp : path) (r : ProjectInfo) : ProjectInfo :=
  mkProjectInfo (app sp (pi_path r)) (pi_size r) (pi_type r).

Definition pre_st (sp : path) (st : St) : St :=
  mkSt (map (pre_info sp) (results st)) (map (app sp) (visited st))
       (map (pre_line sp) (log st)).

Definition is_dir (n : node) : bool :=
  match n with NDir _ => true | NFile _ => false end.

Definition has_dir (name : string) (l : list (string * node)) : bool :=
  existsb (fun e => String.eqb (fst e) name && is_dir (snd e)) l.

(** [all_dirs P n]: [P] holds of every directory listing of [n]. *)
Fixpoint all_dirs (P : list (string * node) -> bool) (n : node) : bool :=
  match n with
  | NDir (Some files) =>
      P files
      && (fix all (files : list (string * node)) : bool :=
            match files with
            | [] => true
            | (_, c) :: r => all_dirs P c && all r
            end) files
  | _ => true
  end.

(** A [target] directory without a [Cargo.toml] beside it, holding a
    [node_modules] directory. *)
Definition projC_listing : list (string * node) :=
  [("src", NDir (Some [("main.rs", NFile (Some 40))]));
   ("target", NDir (Some [("node_modules", NDir (Some [("m.js", NFile (Some 5))]))]))].

Definition projC_root : node := NDir (Some [("projC", NDir (Some projC_listing))]).

(** Neither a [node_modules] directory nor a confirmed [target]. *)
Definition plain_root : node :=
  NDir (Some [("projD", NDir (Some [("target", NDir (Some [("o", NFile (Some 8))]))]));
              ("docs", NDir (Some [("a.md", NFile (Some 4))]));
              (".git", NDir None)]).

(** No directory named [target]; a [node_modules] under a hidden directory. *)
Definition node_only_root : node :=
  NDir (Some [("web", projA);
              ("docs", NDir (Some [("a.md", NFile (Some 4))]));
              (".cache", NDir (Some [("node_modules", NDir (Some []))]))]).

(** ** [deleteBuildDirectory]

    [fs.rm(path.join(projectPath, type === "node" ? "node_modules" : "target"),
    { recursive: true, force: true })]: the path it removes. *)
Definition deleteBuildDirectory_path (projectPath : path) (t : ptype) : path :=
  join projectPath (match t with TNode => "node_modules" | TRust => "target" end).

(** ** [cleanup] and [main] of [src/index.ts]

    The terminal and the libraries ([ora] spinners, [inquirer] prompts,
    [chalk] colours, [fs.rm]) are outside the repository: [main] is modelled
    as the trace of the calls it makes on them, the prompts' answers and the
    outcome of each [fs.rm] being inputs.  The module-level [activeSpinner]
    is state.  Signal handlers registered by [setupCleanup] are not run. *)

Inductive message : Type :=
| MTitle | MSubtitle | MNoBuildDirs | MNoSelection | MCancelled.

Inductive event : Type :=
| EShowCursor                       (** [showCursor()] *)
| ESetupCleanup                     (** [setupCleanup()] *)
| ELog (m : message)                (** [console.log] *)
| ESpinnerStart                     (** [ora(...).start()] *)
| ESpinnerStop                      (** [activeSpinner.stop()] *)
| ESpinnerSucceed                   (** [activeSpinner.succeed(...)] *)
| ESpinnerFail                      (** [activeSpinner.fail(...)] *)
| ESelectPrompt (choices : list ProjectInfo)  (** checkbox prompt *)
| EConfirmPrompt (count : nat)      (** confirm prompt *)
| EDelete (p : path)                (** [fs.rm(p, {recursive, force})] *)
| EDeleteError                      (** [console.error(error)] *)
| EPromptError (msg : string).      (** [console.error("An error occurred:", error)] *)

(** What a rejected prompt throws. *)
Inductive thrown : Type :=
| ThrownError (message : string)
| ThrownString (s : string)
| ThrownOther.

(** [e instanceof Error ? e : new Error(typeof e === "string" ? e : "Unknown error")]
    and its [message]. *)
Definition error_message (e : thrown) : string :=
  match e with
  | ThrownError m => m
  | ThrownString s => s
  | ThrownOther => "Unknown error"
  end.

Inductive answer (A : Type) : Type :=
| Answered (a : A)
| Threw (e : thrown).
Arguments Answered {A} a.
Arguments Threw {A} e.

(** The checkbox prompt returns the values of the checked choices, in the
    order of the choices. *)
Fixpoint select {A : Type} (mask : list bool) (l : list A) : list A :=
  match mask, l with
  | b :: mask', x :: l' => if b then x :: select mask' l' else select mask' l'
  | _, _ => []
  end.

Record MSt : Type := mkMSt {
  activeSpinner : bool;
  trace : list event
}.

Definition emit (e : event) (st : MSt) : MSt :=
  mkMSt (activeSpinner st) (app (trace st) [e]).

Definition spinner_start (st : MSt) : MSt :=
  mkMSt true (app (trace st) [ESpinnerStart]).

(** [if (activeSpinner) { activeSpinner.stop(); activeSpinner = null; }
    showCursor();] *)
Definition cleanup (st : MSt) : MSt :=
  let st := if activeSpinner st
            then mkMSt false (app (trace st) [ESpinnerStop]) else st in
  emit EShowCursor st.

(** The [catch (e)] of [main]'s prompt block. *)
Definition report_prompt_error (e : thrown) (st : MSt) : MSt :=
  if String.eqb (error_message e) "User force closed the prompt" then st
  else emit (EPromptError (error_message e)) st.

(** [Promise.all(selectedProjects.map(p => deleteBuildDirectory(p.path, p.type)))]
    then [succeed], or [fail] and [console.error] when an [fs.rm] rejects. *)
Definition delete_selected (rm_ok : path -> bool) (selected : list ProjectInfo)
    (st : MSt) : MSt :=
  let paths := map (fun r => deleteBuildDirectory_path (pi_path r) (pi_type r))
                   selected in
  let st := fold_left (fun st p => emit (EDelete p) st) paths st in
  if forallb rm_ok paths then emit ESpinnerSucceed st
  else emit EDeleteError (emit ESpinnerFail st).

Definition main (cwd : path) (root : node) (sel : answer (list bool))
    (conf : answer bool) (rm_ok : path -> bool) : MSt :=
  let st := mkMSt false [] in
  let st := emit EShowCursor st in
  let st := emit ESetupCleanup st in
  let st := emit (ELog MSubtitle) (emit (ELog MTitle) st) in
  let st := spinner_start st in
  let projects := findBuildDirectories cwd root emptySt in
  let projects := results projects in
  let st := mkMSt false (app (trace st) [ESpinnerStop]) in
  let st := emit EShowCursor st in
  match projects with
  | [] => emit (ELog MNoBuildDirs) st
  | _ :: _ =>
      let st := emit (ESelectPrompt projects) st in
      let st :=
        match sel with
        | Threw e => report_prompt_error e st
        | Answered mask =>
            let selectedProjects := select mask projects in
            match selectedProjects with
            | [] => emit (ELog MNoSelection) st
            | _ :: _ =>
                let st := emit (EConfirmPrompt (length selectedProjects)) st in
                match conf with
                | Threw e => report_prompt_error e st
                | Answered false => emit (ELog MCancelled) st
                | Answered true =>
                    delete_selected rm_ok selectedProjects (spinner_start st)
                end
            end
        end in
      cleanup st
  end.

(** The paths [main] hands to [fs.rm], in order. *)
Definition deletions (tr : list event) : list path :=
  flat_map (fun e => match e with EDelete p => [p] | _ => [] end) tr.

Definition is_spinner_start (e : event) : bool :=
  match e with ESpinnerStart => true | _ => false end.

Definition is_spinner_stop (e : event) : bool :=
  match e with ESpinnerStop => true | _ => false end.

(** The cursor is settled: after the last spinner start the spinner was
    stopped and the cursor shown. *)
Definition settled (tr : list event) : Prop :=
  exists pre post, tr = app pre (ESpinnerStop :: EShowCursor :: post)
    /\ forallb (fun e => negb (is_spinner_start e)) post = true.

(** *** Home directory and display paths *)

(** JavaScript's [a || b] on a possibly undefined string: [a] when it is a
    non-empty string, [b] otherwise. *)
Definition js_or (a b : option string) : option string :=
  match a with
  | Some s => if String.eqb s "" then b else a
  | None => b
  end.

(** [process.env.HOME || process.env.USERPROFILE || ""] *)
Definition getHomeDirectory (HOME USERPROFILE : option string) : string :=
  match js_or (js_or HOME USERPROFILE) (Some "") with
  | Some s => s
  | None => ""
  end.

(** [s.replace(pat, rep)] with a string pattern and a replacement without
    [$] patterns: the first occurrence of [pat] (found as by [indexOf]) is
    replaced, nothing is replaced when there is none. *)
Definition js_replace (s pat rep : string) : string :=
  match String.index 0 pat s with
  | None => s
  | Some i =>
      String.append (substring 0 i s)
        (String.append rep
           (substring (i + String.length pat)
              (String.length s - (i + String.length pat)) s))
  end.

(** [nice_path: path.dirname(fullPath).replace(getHomeDirectory(), "~")] *)
Definition nice_path (HOME USERPROFILE : option string) (dir : string) : string :=
  js_replace dir (getHomeDirectory HOME USERPROFILE) "~".

(** *** Readable trees *)

(** Every directory can be listed and every other entry can be [stat]ed. *)
Fixpoint clean (n : node) : bool :=
  match n with
  | NFile s => match s with Some _ => true | None => false end
  | NDir None => false
  | NDir (Some files) =>
      (fix all (files : list (string * node)) : bool :=
         match files with
         | [] => true
         | (_, c) :: r => clean c && all r
         end) files
  end.

(** ** Equations of the embedded functions *)

Section Equations.

Lemma gds_dir p files lg :
  getDirectorySize p (NDir (Some files)) lg = gds_loop p files 0 lg.
Proof. reflexivity. Qed.

Lemma gds_unlisted p lg :
  getDirectorySize p (NDir None) lg = (0, app lg [ErrReading p]).
Proof. reflexivity. Qed.

Lemma gds_loop_nil p size lg : gds_loop p [] size lg = (size, lg).
Proof. reflexivity. Qed.

Lemma gds_loop_dir p nm x r size lg :
  gds_loop p ((nm, NDir x) :: r) size lg =
  let '(s, lg') := getDirectorySize (join p nm) (NDir x) lg in
  gds_loop p r (size + s) lg'.
Proof. reflexivity. Qed.

Lemma gds_loop_file p nm s r size lg :
  gds_loop p ((nm, NFile (Some s)) :: r) size lg = gds_loop p r (size + s) lg.
Proof. reflexivity. Qed.

Lemma gds_loop_statfail p nm r size lg :
  gds_loop p ((nm, NFile None) :: r) size lg = (size, app lg [ErrReading p]).
Proof. reflexivity. Qed.

Lemma fbd_dir p files st :
  findBuildDirectories p (NDir (Some files)) st =
  fbd_loop p (NDir (Some files)) files (add_visit p st).
Proof. reflexivity. Qed.

Lemma fbd_unlisted p st :
  findBuildDirectories p (NDir None) st = add_log (ErrSearching p) st.
Proof. reflexivity. Qed.

Lemma fbd_loop_nil p n st : fbd_loop p n [] st = st.
Proof. reflexivity. Qed.

Lemma fbd_loop_cons p n e r st :
  fbd_loop p n (e :: r) st = fbd_loop p n r (fbd_step p n e st).
Proof.
  destruct e as [nm [s|x]]; [reflexivity|].
  cbn -[findBuildDirectories record_match isRustProject startsWithDot String.eqb].
  repeat match goal with
         | |- context [if ?b then _ else _] => destruct b
         end; reflexivity.
Qed.

Lemma fbd_loop_fold p n files st :
  fbd_loop p n files st = fold_left (fun st e => fbd_step p n e st) files st.
Proof.
  revert st; induction files as [|e r IH]; intro st; [reflexivity|].
  rewrite fbd_loop_cons; apply IH.
Qed.

End Equations.

(** ** [getDirectorySize] depends on neither the log nor the path *)

Section Size.

Lemma join_app sp p nm : join (app sp p) nm = app sp (join p nm).
Proof. unfold join; now rewrite app_assoc. Qed.

Lemma gds_frame : forall n p lg,
  getDirectorySize p n lg =
  (fst (getDirectorySize p n []), app lg (snd (getDirectorySize p n []))).
Proof.
  induction n using node_ind'; intros p lg; try reflexivity.
  rewrite !gds_dir. generalize 0 as size. revert lg.
  induction H as [|[nm c] r Hc Hr IH]; intros lg size.
  - rewrite !gds_loop_nil; simpl; now rewrite app_nil_r.
  - destruct c as [[s|]|x].
    + rewrite !gds_loop_file; apply IH.
    + rewrite !gds_loop_statfail; reflexivity.
    + cbn [snd] in Hc. rewrite !gds_loop_dir, (Hc (join p nm) lg).
      destruct (getDirectorySize (join p nm) (NDir x) []) as [s l0] eqn:E.
      simpl. rewrite (IH (app lg l0)), (IH l0). simpl.
      now rewrite app_assoc.
Qed.

Lemma gds_prefix : forall n sp p lg,
  getDirectorySize (app sp p) n (map (pre_line sp) lg) =
  (fst (getDirectorySize p n lg), map (pre_line sp) (snd (getDirectorySize p n lg))).
Proof.
  induction n using node_ind'; intros sp p lg;
    try (simpl; now rewrite map_app).
  rewrite !gds_dir. generalize 0 as size. revert lg.
  induction H as [|[nm c] r Hc Hr IH]; intros lg size.
  - reflexivity.
  - destruct c as [[s|]|x].
    + rewrite !gds_loop_file; apply IH.
    + rewrite !gds_loop_statfail; simpl; now rewrite map_app.
    + cbn [snd] in Hc. rewrite !gds_loop_dir, join_app, Hc.
      destruct (getDirectorySize (join p nm) (NDir x) lg) as [s l0].
      simpl. apply IH.
Qed.

Lemma gds_size : forall n p lg, fst (getDirectorySize p n lg) = dsize n.
Proof.
  intros n p lg. rewrite gds_frame. unfold dsize.
  rewrite <- (app_nil_r p) at 1.
  change (@nil logline) with (map (pre_line p) []) at 1.
  now rewrite gds_prefix.
Qed.

End Size.

(** ** The scanner only appends to its state *)

Section Frame.

Lemma st_app_assoc a b c : st_app a (st_app b c) = st_app (st_app a b) c.
Proof. unfold st_app; simpl; now rewrite !app_assoc. Qed.

Lemma st_app_empty_r a : st_app a emptySt = a.
Proof. destruct a; unfold st_app; simpl; now rewrite !app_nil_r. Qed.

Lemma st_app_empty_l a : st_app emptySt a = a.
Proof. now destruct a. Qed.

Lemma record_match_frame p f c t st :
  record_match p f c t st = st_app st (record_match p f c t emptySt).
Proof.
  unfold record_match. rewrite (gds_frame c f (log st)).
  simpl log. destruct (getDirectorySize f c []) as [s l]; simpl.
  destruct st; unfold st_app, push, set_log; simpl; now rewrite app_nil_r.
Qed.

Lemma add_visit_frame p st : add_visit p st = st_app st (add_visit p emptySt).
Proof. destruct st; unfold st_app, add_visit; simpl; now rewrite !app_nil_r. Qed.

Section Fold.

Variable f : (string * node) -> St -> St.
Variable l : list (string * node).
Hypothesis f_frame :
  forall e, In e l -> forall st, f e st = st_app st (f e emptySt).

Lemma fold_frame : forall a b,
  fold_left (fun st e => f e st) l (st_app a b) =
  st_app a (fold_left (fun st e => f e st) l b).
Proof.
  clear -f_frame. induction l as [|e r IH]; intros a b; [reflexivity|].
  simpl. rewrite (f_frame e (or_introl eq_refl) (st_app a b)),
    <- st_app_assoc, <- (f_frame e (or_introl eq_refl) b).
  apply IH. intros e' He'; apply f_frame; now right.
Qed.

Lemma fold_results : forall st,
  results (fold_left (fun st e => f e st) l st) =
  app (results st) (flat_map (fun e => results (f e emptySt)) l).
Proof.
  clear -f_frame. induction l as [|e r IH]; intros st; simpl.
  - now rewrite app_nil_r.
  - rewrite f_frame by now left. rewrite IH by (intros; apply f_frame; now right).
    simpl. now rewrite app_assoc.
Qed.

Lemma fold_visited : forall st,
  visited (fold_left (fun st e => f e st) l st) =
  app (visited st) (flat_map (fun e => visited (f e emptySt)) l).
Proof.
  clear -f_frame. induction l as [|e r IH]; intros st; simpl.
  - now rewrite app_nil_r.
  - rewrite f_frame by now left. rewrite IH by (intros; apply f_frame; now right).
    simpl. now rewrite app_assoc.
Qed.

End Fold.

Lemma step_frame p n nm c :
  (forall p' st, findBuildDirectories p' c st =
                 st_app st (findBuildDirectories p' c emptySt)) ->
  forall st, fbd_step p n (nm, c) st = st_app st (fbd_step p n (nm, c) emptySt).
Proof.
  intros IH st. unfold fbd_step.
  destruct c as [s|x]; [now rewrite st_app_empty_r|].
  repeat match goal with
         | |- context [if ?b then _ else _] => destruct b
         end;
    auto using record_match_frame; now rewrite st_app_empty_r.
Qed.

Lemma fbd_frame : forall n p st,
  findBuildDirectories p n st = st_app st (findBuildDirectories p n emptySt).
Proof.
  induction n using node_ind'; intros p st;
    [destruct st; unfold st_app, add_log; simpl; now rewrite !app_nil_r ..|].
  rewrite !fbd_dir, !fbd_loop_fold, add_visit_frame.
  apply fold_frame. intros [nm c] Hin.
  apply step_frame. rewrite Forall_forall in H. exact (H _ Hin).
Qed.

Lemma step_frame' p n e st :
  fbd_step p n e st = st_app st (fbd_step p n e emptySt).
Proof. destruct e; apply step_frame; intros; apply fbd_frame. Qed.

Lemma fbd_results p files st :
  results (findBuildDirectories p (NDir (Some files)) st) =
  app (results st)
    (flat_map (fun e => results (fbd_step p (NDir (Some files)) e emptySt)) files).
Proof.
  rewrite fbd_dir, fbd_loop_fold, fold_results by (intros; apply step_frame').
  reflexivity.
Qed.

Lemma fbd_visited p files st :
  visited (findBuildDirectories p (NDir (Some files)) st) =
  app (app (visited st) [p])
    (flat_map (fun e => visited (fbd_step p (NDir (Some files)) e emptySt)) files).
Proof.
  rewrite fbd_dir, fbd_loop_fold, fold_visited by (intros; apply step_frame').
  reflexivity.
Qed.

End Frame.

(** ** One iteration of the scanner's loop *)

Section Step.

Lemma record_match_empty p f c t :
  results (record_match p f c t emptySt) = [mkProjectInfo p (dsize c) t] /\
  visited (record_match p f c t emptySt) = [].
Proof.
  unfold record_match. pose proof (gds_size c f []) as Hs. simpl log.
  destruct (getDirectorySize f c []) as [s l]; simpl in Hs |- *.
  now subst s.
Qed.

(** An entry of a listing is skipped, recorded as a match of its own, or
    recursed into. *)
Lemma step_cases p N nm c :
  let S := fbd_step p N (nm, c) emptySt in
  (results S = [] /\ visited S = []) \/
  (exists x t, c = NDir x /\ nm = artifact_name t
     /\ (t = TRust -> isRustProject N = true)
     /\ results S = [mkProjectInfo p (dsize c) t] /\ visited S = []) \/
  (exists x, c = NDir x /\ ordinary nm = true
     /\ S = findBuildDirectories (join p nm) c emptySt).
Proof.
  unfold fbd_step. destruct c as [s|x]; [left; split; reflexivity|].
  destruct (nm =? "node_modules") eqn:E1.
  { right; left. exists x, TNode. apply String.eqb_eq in E1.
    repeat split; auto; try discriminate; apply record_match_empty. }
  destruct (nm =? "target") eqn:E2, (isRustProject N) eqn:E3;
    cbn -[findBuildDirectories record_match].
  - right; left. exists x, TRust. apply String.eqb_eq in E2.
    repeat split; auto; apply record_match_empty.
  - left. rewrite andb_false_r. split; reflexivity.
  - destruct (negb (startsWithDot nm)) eqn:E4; simpl;
      [|left; split; reflexivity].
    right; right. exists x. unfold ordinary. rewrite E1, E2, E4. auto.
  - destruct (negb (startsWithDot nm)) eqn:E4; simpl;
      [|left; split; reflexivity].
    right; right. exists x. unfold ordinary. rewrite E1, E2, E4. auto.
Qed.

End Step.

(** ** Where the scanner looks and what it records *)

Section Shape.

(** Every directory the scanner lists lies below the start path through
    ordinary (not hidden, not artifact-named) directories. *)
Lemma visited_shape : forall n p v,
  In v (visited (findBuildDirectories p n emptySt)) ->
  exists q l, v = app p q /\ Forall (fun s => ordinary s = true) q
              /\ dir_at n q l.
Proof.
  induction n as [s| |files IH] using node_ind'; intros p v Hv;
    [destruct Hv..|].
  rewrite fbd_visited in Hv. simpl in Hv. destruct Hv as [<-|Hv].
  { exists [], files. rewrite app_nil_r. repeat constructor. }
  apply in_flat_map in Hv. destruct Hv as [[nm c] [Hin Hv]].
  destruct (step_cases p (NDir (Some files)) nm c)
    as [[_ E]|[(x & t & _ & _ & _ & _ & E)|(x & -> & Ho & E)]];
    [rewrite E in Hv; destruct Hv..|].
  rewrite E in Hv. rewrite Forall_forall in IH.
  destruct (IH _ Hin _ _ Hv) as (q & l & -> & Hq & Hd).
  exists (nm :: q), l. unfold join. rewrite <- app_assoc.
  repeat split; auto. econstructor; eauto.
Qed.

(** Every recorded match names a directory reached through ordinary
    directories, one of whose entries is an artifact directory of its type,
    confirmed by [isRustProject] for [target], with that directory's size. *)
Lemma results_shape : forall n p r,
  In r (results (findBuildDirectories p n emptySt)) ->
  exists q l x, pi_path r = app p q /\ Forall (fun s => ordinary s = true) q
    /\ dir_at n q l /\ In (artifact_name (pi_type r), NDir x) l
    /\ (pi_type r = TRust -> isRustProject (NDir (Some l)) = true)
    /\ pi_size r = dsize (NDir x).
Proof.
  induction n as [s| |files IH] using node_ind'; intros p r Hr;
    [destruct Hr..|].
  rewrite fbd_results in Hr. apply in_flat_map in Hr.
  destruct Hr as [[nm c] [Hin Hr]].
  destruct (step_cases p (NDir (Some files)) nm c)
    as [[E _]|[(x & t & -> & -> & Ht & E & _)|(x & -> & Ho & E)]].
  - rewrite E in Hr; destruct Hr.
  - rewrite E in Hr. destruct Hr as [<-|[]]. simpl.
    exists [], files, x. rewrite app_nil_r. repeat split; auto; constructor.
  - rewrite E in Hr. rewrite Forall_forall in IH.
    destruct (IH _ Hin _ _ Hr) as (q & l & y & Hp & Hq & Hd & H1 & H2 & H3).
    exists (nm :: q), l, y. rewrite Hp. unfold join. rewrite <- app_assoc.
    repeat split; auto. econstructor; eauto.
Qed.

End Shape.

(** ** Well-formed trees and [isRustProject] *)

Section Trees.

Lemma nodup_names_NoDup names : nodup_names names = true -> NoDup names.
Proof.
  induction names as [|s r IH]; simpl; intros H; [constructor|].
  apply andb_prop in H as [H1 H2]. constructor; auto.
  intros Hin. apply negb_true_iff in H1.
  assert (existsb (String.eqb s) r = true) as Hc
    by (apply existsb_exists; exists s; split; auto; apply String.eqb_refl).
  congruence.
Qed.

Lemma wf_dir l :
  wf (NDir (Some l)) = true ->
  NoDup (map fst l) /\ forall nm c, In (nm, c) l -> wf c = true.
Proof.
  simpl. intros H. apply andb_prop in H as [H1 H2].
  split; [now apply nodup_names_NoDup|].
  clear H1. induction l as [|[nm' c'] r IH]; intros nm c Hin; [destruct Hin|].
  apply andb_prop in H2 as [H3 H4]. destruct Hin as [E|Hin].
  - now inversion E; subst.
  - eauto.
Qed.

Lemma NoDup_fst_unique (l : list (string * node)) nm c c' :
  NoDup (map fst l) -> In (nm, c) l -> In (nm, c') l -> c = c'.
Proof.
  induction l as [|[a b] r IH]; simpl; intros Hnd H1 H2; [destruct H1|].
  inversion Hnd as [|? ? Hnot Hnd']; subst.
  destruct H1 as [E1|H1], H2 as [E2|H2].
  - congruence.
  - inversion E1; subst. exfalso. apply Hnot.
    apply (in_map fst) in H2. exact H2.
  - inversion E2; subst. exfalso. apply Hnot.
    apply (in_map fst) in H1. exact H1.
  - eauto.
Qed.

(** In a well-formed tree a path names at most one directory. *)
Lemma dir_at_fun n q l1 l2 :
  wf n = true -> dir_at n q l1 -> dir_at n q l2 -> l1 = l2.
Proof.
  intros Hwf H1. revert l2 Hwf. induction H1 as [l|l nm c q l' Hin Hd IH];
    intros l2 Hwf H2; inversion H2; subst; auto.
  apply wf_dir in Hwf as [Hnd Hc].
  match goal with H : In (nm, ?c') l |- _ =>
    pose proof (NoDup_fst_unique l nm c c' Hnd Hin H) as -> end.
  eauto.
Qed.

Lemma isRustProject_spec l :
  isRustProject (NDir (Some l)) = true <-> In "Cargo.toml" (map fst l).
Proof.
  simpl. rewrite existsb_exists. split.
  - intros [e [Hin He]]. apply String.eqb_eq in He. rewrite <- He.
    now apply in_map.
  - intros Hin. apply in_map_iff in Hin as [e [He Hin]].
    exists e. split; auto. now apply String.eqb_eq.
Qed.

Lemma artifact_not_ordinary t : ordinary (artifact_name t) = false.
Proof. now destruct t. Qed.

Lemma ordinary_not_hidden s : ordinary s = true -> startsWithDot s = false.
Proof.
  unfold ordinary. destruct (startsWithDot s); simpl; auto.
Qed.

(** A path that descends through ordinary directories never passes through
    an artifact directory. *)
Lemma ordinary_no_artifact p q q' t rest :
  Forall (fun s => ordinary s = true) q' ->
  app p q' = app (join (app p q) (artifact_name t)) rest -> False.
Proof.
  intros Hq E. unfold join in E. rewrite <- !app_assoc in E. apply app_inv_head in E.
  subst q'. rewrite Forall_forall in Hq.
  assert (ordinary (artifact_name t) = true) as H
    by (apply Hq; apply in_or_app; right; now left).
  now rewrite artifact_not_ordinary in H.
Qed.

End Trees.

(** ** Claims about the walk *)

(** C2: a directory named [target] whose parent has no entry named
    [Cargo.toml] gives no [rust] match for that parent, and the scanner
    neither lists it nor anything below it, nor records a match inside it. *)
Theorem unconfirmed_target_skipped : forall sp root q l x,
  wf root = true -> dir_at root q l -> In ("target", NDir x) l ->
  ~ In "Cargo.toml" (map fst l) ->
  (forall r, In r (scan sp root) -> ~ (pi_path r = app sp q /\ pi_type r = TRust))
  /\ (forall v, In v (walk sp root) -> ~ is_prefix (join (app sp q) "target") v)
  /\ (forall r, In r (scan sp root) ->
        ~ is_prefix (join (app sp q) "target") (pi_path r)).
Proof.
  intros sp root q l x Hwf Hd _ Hno. split; [|split].
  - intros r Hr [Hp Ht].
    destruct (results_shape _ _ _ Hr)
      as (q' & l' & y & Hp' & _ & Hd' & _ & Hrust & _).
    rewrite Hp in Hp'. apply app_inv_head in Hp'. subst q'.
    rewrite <- (dir_at_fun _ _ _ _ Hwf Hd Hd') in Hrust.
    apply Hno, isRustProject_spec, Hrust, Ht.
  - intros v Hv [rest E].
    destruct (visited_shape _ _ _ Hv) as (q' & l' & -> & Hq' & _).
    exact (ordinary_no_artifact sp q q' TRust rest Hq' E).
  - intros r Hr [rest E].
    destruct (results_shape _ _ _ Hr) as (q' & l' & y & Hp' & Hq' & _).
    rewrite Hp' in E. exact (ordinary_no_artifact sp q q' TRust rest Hq' E).
Qed.

(** C3: for every match, the scanner lists neither the matched artifact
    directory nor anything below it, and records no other match whose
    project directory is that artifact directory or lies inside it. *)
Theorem matched_not_entered : forall sp root r,
  In r (scan sp root) ->
  let a := join (pi_path r) (artifact_name (pi_type r)) in
  (forall v, In v (walk sp root) -> ~ is_prefix a v)
  /\ (forall r', In r' (scan sp root) -> ~ is_prefix a (pi_path r')).
Proof.
  intros sp root r Hr a.
  destruct (results_shape _ _ _ Hr) as (q & l & x & Hp & _).
  subst a. rewrite Hp. split.
  - intros v Hv [rest E].
    destruct (visited_shape _ _ _ Hv) as (q' & l' & -> & Hq' & _).
    exact (ordinary_no_artifact sp q q' _ rest Hq' E).
  - intros r' Hr' [rest E].
    destruct (results_shape _ _ _ Hr') as (q' & l' & y & Hp' & Hq' & _).
    rewrite Hp' in E. exact (ordinary_no_artifact sp q q' _ rest Hq' E).
Qed.

(** C7: below the start path, every directory the scanner lists and every
    matched artifact directory is reached through directories whose names do
    not start with [.]: nothing inside a hidden directory is listed or
    matched. *)
Theorem hidden_not_entered : forall sp root,
  Forall (fun v => exists q, v = app sp q
            /\ Forall (fun s => startsWithDot s = false) q) (walk sp root)
  /\ Forall (fun r => exists q, join (pi_path r) (artifact_name (pi_type r)) = app sp q
            /\ Forall (fun s => startsWithDot s = false) q) (scan sp root).
Proof.
  intros sp root. split; apply Forall_forall.
  - intros v Hv.
    destruct (visited_shape _ _ _ Hv) as (q & l & -> & Hq & _).
    exists q. split; auto.
    eapply Forall_impl; [|exact Hq]. apply ordinary_not_hidden.
  - intros r Hr.
    destruct (results_shape _ _ _ Hr) as (q & l & x & Hp & Hq & _).
    exists (app q [artifact_name (pi_type r)]). rewrite Hp. unfold join.
    rewrite app_assoc. split; auto.
    apply Forall_app; split.
    + eapply Forall_impl; [|exact Hq]. apply ordinary_not_hidden.
    + constructor; [now destruct (pi_type r)|constructor].
Qed.

(** C8: a tree with no directory named [node_modules] and no directory named
    [target] beside an entry named [Cargo.toml] yields no match. *)
Theorem no_artifacts_empty : forall sp root,
  (forall q l x, dir_at root q l ->
     ~ In ("node_modules", NDir x) l
     /\ (In ("target", NDir x) l -> ~ In "Cargo.toml" (map fst l))) ->
  scan sp root = [].
Proof.
  intros sp root Hno. destruct (scan sp root) as [|r rs] eqn:E; [reflexivity|].
  assert (In r (scan sp root)) as Hr by (rewrite E; now left).
  destruct (results_shape _ _ _ Hr)
    as (q & l & x & _ & _ & Hd & Hin & Hrust & _).
  destruct (Hno q l x Hd) as [Hn Ht].
  destruct (pi_type r) eqn:Ety.
  - exfalso; contradiction.
  - exfalso. apply (Ht Hin). apply isRustProject_spec. auto.
Qed.

(** ** Uniqueness of matches *)

Section Unique.

Lemma NoDup_flat_map_keys (f : string * node -> list ProjectInfo) l :
  NoDup (map fst l) ->
  (forall e, In e l -> NoDup (map key (f e))) ->
  (forall e1 e2 r1 r2, In r1 (f e1) -> In r2 (f e2) -> key r1 = key r2 ->
     fst e1 = fst e2) ->
  NoDup (map key (flat_map f l)).
Proof.
  intros Hnd Hf Hown. induction l as [|e r IH]; simpl; [constructor|].
  inversion Hnd as [|? ? Hnot Hnd']; subst.
  rewrite map_app. apply NoDup_app.
  - apply Hf; now left.
  - apply IH; auto. intros; apply Hf; now right.
  - intros k Hk Hk'. apply in_map_iff in Hk as [r1 [<- Hr1]].
    apply in_map_iff in Hk' as [r2 [Hk Hr2]].
    apply in_flat_map in Hr2 as [e2 [He2 Hr2]].
    apply Hnot. rewrite (Hown e e2 r1 r2 Hr1 Hr2 (eq_sym Hk)).
    now apply in_map.
Qed.

(** A match recorded while handling entry [nm] is either the parent's own
    match for the artifact directory [nm], or lies below [nm]. *)
Lemma step_owner p N nm c r :
  In r (results (fbd_step p N (nm, c) emptySt)) ->
  (pi_path r = p /\ nm = artifact_name (pi_type r))
  \/ exists q, pi_path r = app p (nm :: q).
Proof.
  intros Hr.
  destruct (step_cases p N nm c)
    as [[E _]|[(x & t & -> & -> & _ & E & _)|(x & -> & _ & E)]];
    rewrite E in Hr.
  - destruct Hr.
  - destruct Hr as [<-|[]]. now left.
  - right. destruct (results_shape _ _ _ Hr) as (q & _ & _ & Hp & _).
    exists q. rewrite Hp. unfold join. now rewrite <- app_assoc.
Qed.

Lemma path_not_below (p : path) nm q : p <> app p (nm :: q).
Proof.
  intros E. apply (f_equal (@length _)) in E.
  rewrite length_app in E. simpl in E. lia.
Qed.

Lemma step_keys_owner p N e1 e2 r1 r2 :
  In r1 (results (fbd_step p N e1 emptySt)) ->
  In r2 (results (fbd_step p N e2 emptySt)) ->
  key r1 = key r2 -> fst e1 = fst e2.
Proof.
  destruct e1 as [nm1 c1], e2 as [nm2 c2]. simpl. intros H1 H2 Hk.
  unfold key in Hk. injection Hk as Hpath Htype.
  destruct (step_owner _ _ _ _ _ H1) as [[P1 N1]|[q1 P1]],
    (step_owner _ _ _ _ _ H2) as [[P2 N2]|[q2 P2]].
  - congruence.
  - exfalso. apply (path_not_below p nm2 q2). congruence.
  - exfalso. apply (path_not_below p nm1 q1). congruence.
  - rewrite P1, P2 in Hpath. apply app_inv_head in Hpath. congruence.
Qed.

End Unique.

(** C1 (as stated): two entries of one scan share their [projectPath] when a
    directory holds both [node_modules] and a confirmed [target]. *)
Lemma scan_paths_not_unique :
  wf mixed_project = true
  /\ scan ["proj"] mixed_project =
     [mkProjectInfo ["proj"] 7 TNode; mkProjectInfo ["proj"] 900 TRust]
  /\ ~ NoDup (map pi_path (scan ["proj"] mixed_project)).
Proof.
  split; [reflexivity|]. split; [reflexivity|].
  change (map pi_path (scan ["proj"] mixed_project)) with [["proj"]; ["proj"]].
  intros H. inversion H as [|? ? Hnot _]. apply Hnot. now left.
Qed.

(** C1 (amended): in a well-formed tree no two entries of one scan share
    both [projectPath] and [projectType]; so every artifact directory is
    recorded at most once, and a directory appears twice only when it holds
    both a [node_modules] and a confirmed [target]. *)
Theorem scan_keys_unique : forall root sp,
  wf root = true -> NoDup (map key (scan sp root)).
Proof.
  induction root as [s| |files IH] using node_ind'; intros sp Hwf;
    [constructor..|].
  destruct (wf_dir files Hwf) as [Hnd Hc].
  unfold scan. rewrite fbd_results. simpl app.
  apply NoDup_flat_map_keys; auto.
  - intros [nm c] Hin.
    destruct (step_cases sp (NDir (Some files)) nm c)
      as [[E _]|[(x & t & -> & -> & _ & E & _)|(x & -> & _ & E)]];
      rewrite E.
    + constructor.
    + repeat constructor. intros [].
    + rewrite Forall_forall in IH. apply (IH _ Hin). eapply Hc; eauto.
  - intros; eapply step_keys_owner; eauto.
Qed.

(** ** Sizes *)

Lemma gds_loop_sum p : forall files size lg,
  Forall stat_ok files ->
  fst (gds_loop p files size lg) = size + list_sum (map (child_size p) files).
Proof.
  induction files as [|[nm c] r IH]; intros size lg Hok; [simpl; lia|].
  inversion Hok as [|? ? Hc Hr]; subst. unfold stat_ok in Hc; simpl in Hc.
  cbn [map list_sum]. destruct c as [[s|]|x].
  - rewrite gds_loop_file, IH by exact Hr. simpl. lia.
  - now destruct Hc.
  - rewrite gds_loop_dir. pose proof (gds_size (NDir x) (join p nm) lg) as Hs.
    destruct (getDirectorySize (join p nm) (NDir x) lg) as [s lg'] eqn:E.
    rewrite IH by exact Hr. simpl in Hs. cbn [child_size fst].
    rewrite gds_size, Hs. simpl. lia.
Qed.

(** C4: the size of a listable directory whose non-directory entries all
    answer [stat] is the sum over its immediate children of the recursive
    size of each subdirectory and the [stat] size of each other entry; on
    files of 100 and 250 bytes and a subdirectory holding 50 bytes it is
    400. *)
Theorem getDirectorySize_sum : forall p files lg,
  Forall stat_ok files ->
  fst (getDirectorySize p (NDir (Some files)) lg)
    = list_sum (map (child_size p) files)
  /\ fst (getDirectorySize p size_example lg) = 400.
Proof.
  intros p files lg Hok. split.
  - rewrite gds_dir, gds_loop_sum by exact Hok. reflexivity.
  - rewrite gds_size. reflexivity.
Qed.

Lemma getDirectorySize_sum_witness :
  Forall stat_ok [("x", NFile (Some 3)); ("d", NDir None)]
  /\ fst (getDirectorySize ["w"] (NDir (Some [("x", NFile (Some 3)); ("d", NDir None)])) [])
     = list_sum (map (child_size ["w"]) [("x", NFile (Some 3)); ("d", NDir None)])
  /\ fst (getDirectorySize ["w"] size_example []) = 400.
Proof.
  assert (Hok : Forall stat_ok [("x", NFile (Some 3)); ("d", NDir None)])
    by (repeat constructor; unfold stat_ok; simpl; discriminate).
  split; [exact Hok|]. apply (getDirectorySize_sum ["w"] _ [] Hok).
Defined.

(** ** End to end *)

(** C5: whatever the listing order and whatever [Cargo.toml] holds, the scan
    of [root] returns exactly the [node] match of [root/projA] of size 10
    and the [rust] match of [root/projB] of size 20, in listing order. *)
Theorem e2e_scan : forall swap cargo_swap cargo,
  let A := mkProjectInfo ["root"; "projA"] 10 TNode in
  let B := mkProjectInfo ["root"; "projB"] 20 TRust in
  scan ["root"] (e2e_root swap cargo_swap cargo)
    = if swap then [B; A] else [A; B].
Proof. intros [|] [|] cargo; reflexivity. Qed.

(** ** Error recovery *)

Section Errors.

Lemma ordinary_parts nm :
  ordinary nm = true ->
  startsWithDot nm = false /\ String.eqb nm "node_modules" = false
  /\ String.eqb nm "target" = false.
Proof.
  unfold ordinary. intros H.
  destruct (startsWithDot nm), (String.eqb nm "node_modules"),
    (String.eqb nm "target"); simpl in H; auto; discriminate.
Qed.

End Errors.

(** C6: listing errors are caught where they happen.  For the size: a
    directory that cannot be listed logs [Error reading directory] and
    returns 0, the sum accumulated so far; inside a listing, such a
    subdirectory adds 0 and the loop goes on with the next sibling.  For the
    scan: a directory that cannot be listed logs [Error searching in] and
    leaves the matches and listed directories as they were; inside a
    listing, such an ordinary subdirectory is logged and the loop goes on
    with the next sibling; and a scan never drops the matches accumulated
    before it. *)
Theorem errors_recovered :
  (forall p lg, getDirectorySize p (NDir None) lg = (0, app lg [ErrReading p]))
  /\ (forall p nm rest size lg,
        gds_loop p ((nm, NDir None) :: rest) size lg
        = gds_loop p rest size (app lg [ErrReading (join p nm)]))
  /\ (forall p st,
        findBuildDirectories p (NDir None) st = add_log (ErrSearching p) st
        /\ results (add_log (ErrSearching p) st) = results st
        /\ visited (add_log (ErrSearching p) st) = visited st)
  /\ (forall p N nm rest st,
        ordinary nm = true ->
        fbd_loop p N ((nm, NDir None) :: rest) st
        = fbd_loop p N rest (add_log (ErrSearching (join p nm)) st))
  /\ (forall p n st, exists more,
        results (findBuildDirectories p n st) = app (results st) more).
Proof.
  split; [reflexivity|]. split.
  { intros. rewrite gds_loop_dir, gds_unlisted. now rewrite Nat.add_0_r. }
  split; [intros; repeat split; reflexivity|]. split.
  - intros p N nm rest st Ho. rewrite fbd_loop_cons. f_equal.
    destruct (ordinary_parts nm Ho) as (H1 & H2 & H3).
    unfold fbd_step. rewrite H2, H3, H1. reflexivity.
  - intros p n st. rewrite fbd_frame. eexists; reflexivity.
Qed.

Lemma errors_recovered_witness :
  ordinary "src" = true
  /\ fbd_loop [] (NDir (Some [("src", NDir None)])) [("src", NDir None)] emptySt
     = fbd_loop [] (NDir (Some [("src", NDir None)])) []
         (add_log (ErrSearching (join [] "src")) emptySt).
Proof.
  split; [reflexivity|].
  destruct errors_recovered as (_ & _ & _ & H & _).
  apply H. reflexivity.
Defined.

(** ** The earlier version against the later one *)

Section Refinement.

Lemma fnm_dir p files st :
  Earlier.findNodeModules p (NDir (Some files)) st =
  fnm_loop p files (Earlier.mkSt (Earlier.results st)
                      (app (Earlier.visited st) [p]) (Earlier.log st)).
Proof. reflexivity. Qed.

Lemma no_target_child l nm c :
  no_target (NDir (Some l)) -> In (nm, c) l -> no_target c.
Proof. intros H Hin q l' x Hd. apply (H (nm :: q) l' x). econstructor; eauto. Qed.

Lemma record_match_related p f c st st' :
  related st st' ->
  related (record_match p f c TNode st) (Earlier.record_match p f c st').
Proof.
  intros (H1 & H2 & H3). unfold record_match, Earlier.record_match.
  rewrite H3. destruct (getDirectorySize f c (Earlier.log st')) as [s lg].
  unfold related; simpl. rewrite !map_app, H1. auto.
Qed.

Lemma refines : forall n p st st',
  no_target n -> related st st' ->
  related (findBuildDirectories p n st) (Earlier.findNodeModules p n st').
Proof.
  induction n as [s| |files IH] using node_ind'; intros p st st' Hnt Hrel;
    [destruct Hrel as (H1 & H2 & H3); unfold related; simpl; rewrite H3; auto..|].
  rewrite fbd_dir, fnm_dir.
  assert (Hloc : forall x, ~ In ("target", NDir x) files)
    by (intros x; apply (Hnt [] files x); constructor).
  assert (Hrel' : related (add_visit p st)
                    (Earlier.mkSt (Earlier.results st')
                       (app (Earlier.visited st') [p]) (Earlier.log st')))
    by (destruct Hrel as (H1 & H2 & H3); unfold related; simpl; rewrite H2; auto).
  assert (Hloop : forall l, (forall e, In e l -> In e files) ->
            forall st1 st1', related st1 st1' ->
            related (fbd_loop p (NDir (Some files)) l st1) (fnm_loop p l st1')).
  { induction l as [|[nm c] r IHl]; intros Hsub st1 st1' Hrel1; [exact Hrel1|].
    assert (Hin : In (nm, c) files) by (apply Hsub; now left).
    assert (Hsub' : forall e, In e r -> In e files)
      by (intros; apply Hsub; now right).
    rewrite fbd_loop_cons. cbn [fnm_loop]. unfold fbd_step.
    destruct c as [s|x]; [now apply IHl|].
    destruct (nm =? "node_modules") eqn:E1.
    { apply IHl; auto. now apply record_match_related. }
    destruct (nm =? "target") eqn:E2.
    { apply String.eqb_eq in E2; subst nm. exfalso; exact (Hloc x Hin). }
    simpl. destruct (negb (startsWithDot nm)); simpl; [|now apply IHl].
    apply IHl; auto. rewrite Forall_forall in IH.
    apply (IH _ Hin); auto. exact (no_target_child _ _ _ Hnt Hin). }
  now apply Hloop.
Qed.

End Refinement.

(** C9: on a tree with no directory named [target], the earlier
    [findNodeModules] and [findBuildDirectories] list the same directories in
    the same order, log the same errors, and return the same matches
    projected to (path, size), in the same order. *)
Theorem earlier_refines : forall sp root,
  no_target root ->
  map proj (scan sp root)
    = map proj_earlier (Earlier.results (Earlier.findNodeModules sp root Earlier.emptySt))
  /\ walk sp root = Earlier.visited (Earlier.findNodeModules sp root Earlier.emptySt).
Proof.
  intros sp root Hnt.
  destruct (refines root sp emptySt Earlier.emptySt Hnt) as (H1 & H2 & _);
    [repeat split|].
  split; assumption.
Qed.

(** ** The start path plays no role *)

Section Prefix.

Lemma record_match_prefix sp p f c t st :
  record_match (app sp p) (app sp f) c t (pre_st sp st)
  = pre_st sp (record_match p f c t st).
Proof.
  unfold record_match. simpl log. rewrite gds_prefix.
  destruct (getDirectorySize f c (log st)) as [s lg]; simpl.
  unfold pre_st, push, set_log; simpl. now rewrite map_app.
Qed.

Lemma fbd_prefix : forall n sp p st,
  findBuildDirectories (app sp p) n (pre_st sp st)
  = pre_st sp (findBuildDirectories p n st).
Proof.
  induction n as [s| |files IH] using node_ind'; intros sp p st;
    [unfold pre_st; simpl; now rewrite map_app ..|].
  rewrite !fbd_dir, !fbd_loop_fold.
  replace (add_visit (app sp p) (pre_st sp st)) with (pre_st sp (add_visit p st))
    by (unfold pre_st, add_visit; simpl; now rewrite map_app).
  assert (Hloop : forall l, (forall e, In e l -> In e files) -> forall st0,
            fold_left (fun st e => fbd_step (app sp p) (NDir (Some files)) e st)
              l (pre_st sp st0)
            = pre_st sp (fold_left (fun st e => fbd_step p (NDir (Some files)) e st)
                           l st0)).
  { induction l as [|[nm c] r IHl]; intros Hsub st0; [reflexivity|].
    assert (Hin : In (nm, c) files) by (apply Hsub; now left).
    simpl. rewrite <- IHl by (intros; apply Hsub; now right). f_equal.
    unfold fbd_step. rewrite join_app.
    destruct c as [s|x]; [reflexivity|].
    repeat match goal with
           | |- context [if ?b then _ else _] => destruct b
           end; try reflexivity; try apply record_match_prefix.
    rewrite Forall_forall in IH. apply (IH _ Hin). }
  now apply Hloop.
Qed.

End Prefix.

(** C10: the start directory itself is never tested against the artifact
    names.  Scanning a tree from start path [sp] gives the matches of the
    same tree scanned from the empty path with [sp] put in front, whatever
    the last segment of [sp] is ([node_modules] and [target] included);
    every match lies at or below [sp]; and the parent of the start
    directory never appears as a match. *)
Theorem root_never_matched : forall sp root,
  scan sp root = map (pre_info sp) (scan [] root)
  /\ Forall (fun r => exists q, pi_path r = app sp q) (scan sp root)
  /\ (forall base nm,
        Forall (fun r => pi_path r <> base) (scan (app base [nm]) root)).
Proof.
  intros sp root. split; [|split].
  - unfold scan. pose proof (fbd_prefix root sp [] emptySt) as H.
    rewrite app_nil_r in H. change (pre_st sp emptySt) with emptySt in H.
    rewrite H. reflexivity.
  - apply Forall_forall. intros r Hr.
    destruct (results_shape _ _ _ Hr) as (q & _ & _ & Hp & _). eauto.
  - intros base nm. apply Forall_forall. intros r Hr E.
    destruct (results_shape _ _ _ Hr) as (q & _ & _ & Hp & _).
    rewrite <- app_assoc in Hp. simpl in Hp. rewrite E in Hp.
    exact (path_not_below base nm q Hp).
Qed.

(** ** Checking tree properties by evaluation *)

Section Checkers.

Lemma all_dirs_spec P n q l : all_dirs P n = true -> dir_at n q l -> P l = true.
Proof.
  intros H Hd. induction Hd as [l|l nm c q l' Hin Hd IH]; simpl in H;
    apply andb_prop in H as [H1 H2]; auto.
  apply IH. clear -Hin H2. induction l as [|[nm' c'] r IHr]; [destruct Hin|].
  apply andb_prop in H2 as [H3 H4]. destruct Hin as [E|Hin]; auto.
  now inversion E; subst.
Qed.

Lemma has_dir_false name l x : has_dir name l = false -> ~ In (name, NDir x) l.
Proof.
  intros H Hin. assert (has_dir name l = true) as Ht; [|congruence].
  apply existsb_exists. exists (name, NDir x). split; auto.
  simpl. now rewrite String.eqb_refl.
Qed.

End Checkers.

(** ** Witnesses on concrete trees *)

Lemma plain_root_no_artifacts : forall q l x,
  dir_at plain_root q l ->
  ~ In ("node_modules", NDir x) l
  /\ (In ("target", NDir x) l -> ~ In "Cargo.toml" (map fst l)).
Proof.
  intros q l x Hd.
  pose proof (all_dirs_spec
    (fun l => negb (has_dir "node_modules" l)
              && (negb (has_dir "target" l) || negb (isRustProject (NDir (Some l)))))
    plain_root q l ltac:(vm_compute; reflexivity) Hd) as H.
  apply andb_prop in H as [H1 H2]. apply negb_true_iff in H1.
  split; [now apply has_dir_false|].
  intros Hin HC. apply orb_prop in H2 as [H2|H2]; apply negb_true_iff in H2.
  - exact (has_dir_false _ _ x H2 Hin).
  - apply isRustProject_spec in HC. congruence.
Qed.

Lemma node_only_root_no_target : no_target node_only_root.
Proof.
  intros q l x Hd. apply has_dir_false.
  pose proof (all_dirs_spec (fun l => negb (has_dir "target" l))
                node_only_root q l ltac:(vm_compute; reflexivity) Hd) as H.
  now apply negb_true_iff in H.
Qed.

Lemma scan_keys_unique_witness :
  wf mixed_project = true /\ NoDup (map key (scan ["proj"] mixed_project)).
Proof.
  assert (H : wf mixed_project = true) by reflexivity.
  split; [exact H|]. apply scan_keys_unique. exact H.
Defined.

Lemma unconfirmed_target_skipped_witness :
  let x := Some [("node_modules", NDir (Some [("m.js", NFile (Some 5))]))] in
  wf projC_root = true /\ dir_at projC_root ["projC"] projC_listing
  /\ In ("target", NDir x) projC_listing
  /\ ~ In "Cargo.toml" (map fst projC_listing)
  /\ (forall r, In r (scan ["ws"] projC_root) ->
        ~ (pi_path r = app ["ws"] ["projC"] /\ pi_type r = TRust))
  /\ (forall v, In v (walk ["ws"] projC_root) ->
        ~ is_prefix (join (app ["ws"] ["projC"]) "target") v)
  /\ (forall r, In r (scan ["ws"] projC_root) ->
        ~ is_prefix (join (app ["ws"] ["projC"]) "target") (pi_path r)).
Proof.
  intros x.
  assert (Hwf : wf projC_root = true) by reflexivity.
  assert (Hd : dir_at projC_root ["projC"] projC_listing)
    by (econstructor; [left; reflexivity|constructor]).
  assert (Hin : In ("target", NDir x) projC_listing) by (right; left; reflexivity).
  assert (Hno : ~ In "Cargo.toml" (map fst projC_listing))
    by (intros H; apply isRustProject_spec in H; vm_compute in H; discriminate H).
  do 4 (split; [assumption|]).
  exact (unconfirmed_target_skipped ["ws"] projC_root ["projC"] projC_listing x
           Hwf Hd Hin Hno).
Defined.

Lemma matched_not_entered_witness :
  let r := mkProjectInfo ["root"; "projA"] 10 TNode in
  In r (scan ["root"] (e2e_root false false None))
  /\ (forall v, In v (walk ["root"] (e2e_root false false None)) ->
        ~ is_prefix (join (pi_path r) (artifact_name (pi_type r))) v)
  /\ (forall r', In r' (scan ["root"] (e2e_root false false None)) ->
        ~ is_prefix (join (pi_path r) (artifact_name (pi_type r))) (pi_path r')).
Proof.
  intros r.
  assert (Hr : In r (scan ["root"] (e2e_root false false None)))
    by (vm_compute; left; reflexivity).
  split; [exact Hr|]. exact (matched_not_entered _ _ r Hr).
Defined.

Lemma no_artifacts_empty_witness :
  (forall q l x, dir_at plain_root q l ->
     ~ In ("node_modules", NDir x) l
     /\ (In ("target", NDir x) l -> ~ In "Cargo.toml" (map fst l)))
  /\ scan ["ws"] plain_root = [].
Proof.
  split; [exact plain_root_no_artifacts|].
  apply no_artifacts_empty. exact plain_root_no_artifacts.
Defined.

Lemma earlier_refines_witness :
  no_target node_only_root
  /\ map proj (scan ["ws"] node_only_root)
     = map proj_earlier (Earlier.results
         (Earlier.findNodeModules ["ws"] node_only_root Earlier.emptySt))
  /\ walk ["ws"] node_only_root
     = Earlier.visited (Earlier.findNodeModules ["ws"] node_only_root Earlier.emptySt).
Proof.
  split; [exact node_only_root_no_target|].
  apply earlier_refines. exact node_only_root_no_target.
Defined.

(** ** Further properties of the scanner and of deletion *)

Section More.

Lemma wf_dir_at_nodup n q l : wf n = true -> dir_at n q l -> NoDup (map fst l).
Proof.
  intros Hwf Hd. revert Hwf.
  induction Hd as [l|l nm c q l' Hin Hd IH]; intros Hwf;
    apply wf_dir in Hwf as [Hnd Hc]; eauto.
Qed.

Lemma step_ordinary p N nm x st :
  ordinary nm = true ->
  fbd_step p N (nm, NDir x) st = findBuildDirectories (join p nm) (NDir x) st.
Proof.
  intros Ho. destruct (ordinary_parts nm Ho) as (H1 & H2 & H3).
  unfold fbd_step. rewrite H2, H3, H1. reflexivity.
Qed.

Lemma dir_at_is_dir n q l : dir_at n q l -> exists l0, n = NDir (Some l0).
Proof. intros Hd; inversion Hd; eauto. Qed.

Lemma gds_loop_app p done : forall rest size lg,
  Forall stat_ok done ->
  gds_loop p (app done rest) size lg
  = gds_loop p rest (fst (gds_loop p done size lg)) (snd (gds_loop p done size lg)).
Proof.
  induction done as [|[nm c] r IH]; intros rest size lg Hok; [reflexivity|].
  inversion Hok as [|? ? Hc Hr]; subst. unfold stat_ok in Hc; simpl in Hc.
  simpl app. destruct c as [[s|]|x].
  - rewrite !gds_loop_file. now apply IH.
  - now destruct Hc.
  - rewrite !gds_loop_dir.
    destruct (getDirectorySize (join p nm) (NDir x) lg) as [s lg'].
    now apply IH.
Qed.

End More.

(** Completeness of the scan: every directory reached from the start
    through ordinary directories (not hidden, not named [node_modules] or
    [target]) is listed, each [node_modules] directory in it is reported for
    it with that directory's size, and so is each [target] directory when
    the listing has an entry named [Cargo.toml]. *)
Theorem scan_complete : forall root q l sp,
  dir_at root q l -> Forall (fun s => ordinary s = true) q ->
  In (app sp q) (walk sp root)
  /\ (forall x, In ("node_modules", NDir x) l ->
        In (mkProjectInfo (app sp q) (dsize (NDir x)) TNode) (scan sp root))
  /\ (forall x, In ("target", NDir x) l -> In "Cargo.toml" (map fst l) ->
        In (mkProjectInfo (app sp q) (dsize (NDir x)) TRust) (scan sp root)).
Proof.
  intros root q l sp Hd. revert sp.
  induction Hd as [l|l nm c q l' Hin Hd IH]; intros sp Hq.
  - rewrite app_nil_r. unfold walk, scan, scan_state.
    rewrite fbd_visited, fbd_results. split; [|split].
    + simpl. now left.
    + intros x Hx. apply in_flat_map. exists ("node_modules", NDir x).
      split; auto. unfold fbd_step. simpl String.eqb. cbv iota beta.
      rewrite (proj1 (record_match_empty _ _ _ _)). now left.
    + intros x Hx Hc. apply in_flat_map. exists ("target", NDir x).
      split; auto. apply isRustProject_spec in Hc. unfold fbd_step.
      simpl String.eqb. rewrite Hc. cbn [andb].
      rewrite (proj1 (record_match_empty _ _ _ _)). now left.
  - inversion Hq as [|? ? Ho Hq']; subst.
    destruct (dir_at_is_dir _ _ _ Hd) as [l0 ->].
    destruct (IH (join sp nm) Hq') as (Hw & Hn & Ht).
    unfold join in Hw, Hn, Ht. rewrite <- app_assoc in Hw, Hn, Ht. simpl in Hw, Hn, Ht.
    unfold walk, scan, scan_state.
    rewrite fbd_visited, fbd_results. split; [|split].
    + apply in_or_app; right. apply in_flat_map. exists (nm, NDir (Some l0)).
      split; auto. rewrite step_ordinary by exact Ho. exact Hw.
    + intros x Hx. apply in_flat_map. exists (nm, NDir (Some l0)).
      split; auto. rewrite step_ordinary by exact Ho. exact (Hn x Hx).
    + intros x Hx Hc. apply in_flat_map. exists (nm, NDir (Some l0)).
      split; auto. rewrite step_ordinary by exact Ho. exact (Ht x Hx Hc).
Qed.


(** The directories deleted for two matches of one scan of a well-formed
    tree are disjoint: if one lies inside (or is) the other, the two matches
    are the same. *)
Theorem delete_paths_disjoint : forall sp root r1 r2,
  wf root = true -> In r1 (scan sp root) -> In r2 (scan sp root) ->
  is_prefix (deleteBuildDirectory_path (pi_path r1) (pi_type r1))
            (deleteBuildDirectory_path (pi_path r2) (pi_type r2)) ->
  r1 = r2.
Proof.
  intros sp root r1 r2 Hwf H1 H2 [rest E].
  destruct (results_shape _ _ _ H1) as (q1 & l1 & x1 & P1 & O1 & D1 & I1 & _ & S1).
  destruct (results_shape _ _ _ H2) as (q2 & l2 & x2 & P2 & O2 & D2 & I2 & _ & S2).
  assert (Hd : forall r, deleteBuildDirectory_path (pi_path r) (pi_type r)
                         = join (pi_path r) (artifact_name (pi_type r)))
    by (intros r; unfold deleteBuildDirectory_path; now destruct (pi_type r)).
  rewrite !Hd, P1, P2 in E. unfold join in E. rewrite <- !app_assoc in E.
  apply app_inv_head in E. simpl in E.
  destruct rest as [|z rest'] using rev_ind.
  - apply app_inj_tail in E as [-> Ea].
    assert (Ht : pi_type r1 = pi_type r2)
      by (destruct (pi_type r1), (pi_type r2); simpl in Ea; congruence).
    pose proof (dir_at_fun _ _ _ _ Hwf D1 D2) as <-.
    pose proof (wf_dir_at_nodup _ _ _ Hwf D1) as Hnd.
    rewrite Ht in I1.
    pose proof (NoDup_fst_unique _ _ _ _ Hnd I1 I2) as Hx.
    destruct r1 as [p1 s1 t1], r2 as [p2 s2 t2]; simpl in *.
    subst. congruence.
  - exfalso. rewrite app_comm_cons, app_assoc in E. apply app_inj_tail in E as [E _].
    rewrite Forall_forall in O2.
    assert (ordinary (artifact_name (pi_type r1)) = true) as Ho
      by (apply O2; first [rewrite <- E | rewrite E]; apply in_or_app; right; now left).
    now rewrite artifact_not_ordinary in Ho.
Qed.

(** A non-directory entry whose [stat] fails ends the size loop of its
    directory: the result is the size of the entries listed before it, as if
    the directory held only those, the entries after it are not counted, and
    one [Error reading directory] line is added. *)
Theorem getDirectorySize_stat_failure : forall p done nm rest lg,
  Forall stat_ok done ->
  getDirectorySize p (NDir (Some (app done ((nm, NFile None) :: rest)))) lg
  = (fst (getDirectorySize p (NDir (Some done)) lg),
     app (snd (getDirectorySize p (NDir (Some done)) lg)) [ErrReading p])
  /\ fst (getDirectorySize p (NDir (Some done)) lg)
     = list_sum (map (child_size p) done).
Proof.
  intros p done nm rest lg Hok. rewrite !gds_dir, gds_loop_app by exact Hok.
  rewrite gds_loop_statfail. split; [reflexivity|].
  rewrite gds_loop_sum by exact Hok. reflexivity.
Qed.

(** ** [main] and [cleanup] *)

Section Main.

Lemma deletions_app a b : deletions (app a b) = app (deletions a) (deletions b).
Proof. apply flat_map_app. Qed.

Lemma deletions_map ps : deletions (map EDelete ps) = ps.
Proof. induction ps as [|p ps IH]; simpl; [reflexivity|]. now rewrite IH. Qed.

Lemma fold_emit_delete ps : forall st,
  fold_left (fun st p => emit (EDelete p) st) ps st
  = mkMSt (activeSpinner st) (app (trace st) (map EDelete ps)).
Proof.
  induction ps as [|p ps IH]; intros st; simpl.
  - destruct st; simpl; now rewrite app_nil_r.
  - rewrite IH. simpl. now rewrite <- app_assoc.
Qed.

Lemma select_nil_r {A : Type} (mask : list bool) : select mask (@nil A) = [].
Proof. now destruct mask. Qed.

Lemma select_incl {A : Type} : forall (mask : list bool) (l : list A) x,
  In x (select mask l) -> In x l.
Proof.
  induction mask as [|b mask IH]; intros [|y l] x Hx; simpl in *; try tauto.
  destruct b; [destruct Hx as [<-|Hx]; [now left|]|]; right; eauto.
Qed.

(** The spinner and cursor invariant kept along [main]. *)
Definition spin_inv (st : MSt) : Prop :=
  activeSpinner st = true \/ (activeSpinner st = false /\ settled (trace st)).

Lemma settled_app tr more :
  settled tr -> forallb (fun e => negb (is_spinner_start e)) more = true ->
  settled (app tr more).
Proof.
  intros (pre & post & -> & Hp) Hm. exists pre, (app post more).
  split; [now rewrite <- app_assoc|]. rewrite forallb_app, Hp, Hm. reflexivity.
Qed.

Lemma spin_inv_emit e st :
  is_spinner_start e = false -> spin_inv st -> spin_inv (emit e st).
Proof.
  intros He [H|[H1 H2]]; [now left|]. right. split; [exact H1|].
  apply settled_app; auto. simpl. now rewrite He.
Qed.

Lemma cleanup_settles st :
  spin_inv st -> activeSpinner (cleanup st) = false /\ settled (trace (cleanup st)).
Proof.
  unfold cleanup. intros [H|[H1 H2]].
  - rewrite H. split; [reflexivity|]. exists (trace st), []. simpl.
    now rewrite <- app_assoc.
  - rewrite H1. split; [exact H1|]. apply settled_app; auto.
Qed.

Lemma delete_selected_spinner rm_ok sel st :
  activeSpinner (delete_selected rm_ok sel st) = activeSpinner st.
Proof.
  unfold delete_selected. rewrite fold_emit_delete.
  destruct (forallb _ _); reflexivity.
Qed.

Lemma report_prompt_error_inv e st :
  spin_inv st -> spin_inv (report_prompt_error e st).
Proof.
  unfold report_prompt_error. destruct (String.eqb _ _); auto.
  apply spin_inv_emit. reflexivity.
Qed.

End Main.

(** [main] removes exactly the build directories of the projects ticked at
    the checkbox prompt, in the order of the scan, and only once the
    confirmation prompt answers yes; a thrown prompt, an empty selection or
    a refusal removes nothing. *)
Theorem main_deletions cwd root sel conf rm_ok :
  deletions (trace (main cwd root sel conf rm_ok)) =
  match sel, conf with
  | Answered mask, Answered true =>
      map (fun r => deleteBuildDirectory_path (pi_path r) (pi_type r))
          (select mask (scan cwd root))
  | _, _ => []
  end.
Proof.
  unfold main.
  change (results (findBuildDirectories cwd root emptySt)) with (scan cwd root).
  destruct (scan cwd root) as [|r rs].
  - destruct sel as [mask|e]; [|reflexivity].
    rewrite select_nil_r. destruct conf as [[|]|e]; reflexivity.
  - destruct sel as [mask|e].
    + destruct (select mask (r :: rs)) as [|s ss].
      * destruct conf as [[|]|e]; reflexivity.
      * destruct conf as [[|]|e].
        -- unfold cleanup. rewrite delete_selected_spinner. simpl.
           unfold delete_selected. rewrite fold_emit_delete.
           destruct (forallb _ _); simpl; rewrite !deletions_app, deletions_map.
           all: simpl; now rewrite !app_nil_r.
        -- reflexivity.
        -- unfold report_prompt_error. destruct (String.eqb _ _); reflexivity.
    + unfold report_prompt_error. destruct (String.eqb _ _); reflexivity.
Qed.

(** Whatever the prompts answer and whether the removals succeed, [main]
    ends with no active spinner, and after the last spinner start of its
    output the spinner has been stopped and the cursor shown again. *)
Theorem main_settled cwd root sel conf rm_ok :
  activeSpinner (main cwd root sel conf rm_ok) = false /\
  settled (trace (main cwd root sel conf rm_ok)).
Proof.
  unfold main. cbv zeta.
  match goal with
  | |- context [emit EShowCursor (mkMSt false (app ?t [ESpinnerStop]))] =>
      assert (H0 : activeSpinner (emit EShowCursor (mkMSt false (app t [ESpinnerStop]))) = false
                   /\ settled (trace (emit EShowCursor (mkMSt false (app t [ESpinnerStop])))))
        by (split; [reflexivity|exists t, []; simpl; split; [rewrite <- ?app_assoc|]; reflexivity]);
      generalize dependent (emit EShowCursor (mkMSt false (app t [ESpinnerStop])))
  end.
  intros st0 [Hs0 H0].
  destruct (results _) as [|r rs].
  - split; [exact Hs0|]. apply settled_app; auto.
  - apply cleanup_settles.
    assert (Hi : spin_inv st0) by (right; now split).
    apply (spin_inv_emit (ESelectPrompt (r :: rs))) in Hi; [|reflexivity].
    destruct sel as [mask|e]; [|now apply report_prompt_error_inv].
    destruct (select mask (r :: rs)) as [|s ss];
      [now apply spin_inv_emit|].
    apply (spin_inv_emit (EConfirmPrompt (length (s :: ss)))) in Hi; [|reflexivity].
    destruct conf as [[|]|e].
    + left. now rewrite delete_selected_spinner.
    + now apply spin_inv_emit.
    + now apply report_prompt_error_inv.
Qed.

(** [cleanup] may run any number of times (the [finally] of [main] and every
    exit handler call it): the spinner is stopped at most once, by the first
    call and only when one is active, and each call shows the cursor. *)
Theorem cleanup_iter k st :
  activeSpinner (Nat.iter (S k) cleanup st) = false /\
  trace (Nat.iter (S k) cleanup st) =
  app (trace st) (app (if activeSpinner st then [ESpinnerStop] else [])
                      (repeat EShowCursor (S k))).
Proof.
  induction k as [|k [IH1 IH2]].
  - unfold Nat.iter, cleanup. destruct (activeSpinner st) eqn:E; simpl; rewrite E.
    + split; [reflexivity|]. simpl. now rewrite <- app_assoc.
    + now split.
  - change (Nat.iter (S (S k)) cleanup st) with (cleanup (Nat.iter (S k) cleanup st)).
    assert (Hc : forall st', activeSpinner st' = false -> cleanup st' = emit EShowCursor st')
      by (intros st' H; unfold cleanup; now rewrite H).
    rewrite (Hc _ IH1). split; [exact IH1|]. cbn [trace emit].
    rewrite IH2, <- !app_assoc. do 2 f_equal.
    change (repeat EShowCursor (S (S k))) with (EShowCursor :: repeat EShowCursor (S k)).
    now rewrite repeat_cons.
Qed.

(** ** Display paths *)

Section Strings.

Lemma str_app_nil_r (a : string) : a ++ "" = a.
Proof. induction a as [|c a IH]; simpl; congruence. Qed.

Lemma str_app_assoc (a b c : string) : (a ++ b) ++ c = a ++ (b ++ c).
Proof. induction a as [|x a IH]; simpl; congruence. Qed.

Lemma str_length_app (a b : string) :
  String.length (a ++ b) = String.length a + String.length b.
Proof. induction a as [|x a IH]; simpl; congruence. Qed.

Lemma str_app_inv_head (a b c : string) : a ++ b = a ++ c -> b = c.
Proof. induction a as [|x a IH]; simpl; [auto|]. intros H; injection H; auto. Qed.

Lemma substring_mid (a b c : string) :
  substring (String.length a) (String.length b) (a ++ b ++ c) = b.
Proof.
  induction a as [|x a IH]; simpl; [|exact IH].
  induction b as [|y b IHb]; simpl; [now destruct c|]. now rewrite IHb.
Qed.

Lemma substring_prefix : forall s k p,
  substring 0 k s = p -> String.length p = k -> exists r, s = p ++ r.
Proof.
  induction s as [|c s IH]; intros [|k] p Hs Hl; simpl in Hs; subst p.
  - now exists "".
  - discriminate.
  - now exists (String c s).
  - simpl in Hl. injection Hl as Hl.
    destruct (IH k _ eq_refl Hl) as [r Hr]. exists r. simpl. congruence.
Qed.

Lemma index_split : forall s pat i,
  String.index 0 pat s = Some i ->
  exists pre post, s = pre ++ pat ++ post /\ String.length pre = i.
Proof.
  induction s as [|b s IH]; intros pat i Hi.
  - destruct pat; simpl in Hi; [|discriminate]. injection Hi as <-.
    now exists "", "".
  - change (String.index 0 pat (String b s)) with
      (if prefix pat (String b s) then Some 0
       else match String.index 0 pat s with Some n => Some (S n) | None => None end)
      in Hi.
    destruct (prefix pat (String b s)) eqn:Hp.
    + injection Hi as <-. apply prefix_correct in Hp.
      destruct (substring_prefix _ _ _ Hp eq_refl) as [r Hr].
      now exists "", r.
    + destruct (String.index 0 pat s) as [j|] eqn:Hj; [|discriminate].
      injection Hi as <-. destruct (IH _ _ Hj) as (pre & post & -> & Hl).
      exists (String b pre), post. simpl. now rewrite Hl.
Qed.

Lemma js_replace_at s pat rep i :
  String.index 0 pat s = Some i ->
  exists pre post, s = pre ++ pat ++ post /\ String.length pre = i
    /\ js_replace s pat rep = pre ++ rep ++ post.
Proof.
  intros Hi. destruct (index_split _ _ _ Hi) as (pre & post & Hs & Hl).
  exists pre, post. split; [exact Hs|]. split; [exact Hl|].
  unfold js_replace. rewrite Hi. f_equal.
  - rewrite Hs, <- Hl. exact (substring_mid "" pre (pat ++ post)).
  - f_equal. rewrite Hs, <- Hl, !str_length_app.
    replace (String.length pre + (String.length pat + String.length post)
             - (String.length pre + String.length pat))
      with (String.length post) by lia.
    rewrite <- str_length_app, <- str_app_assoc.
    pose proof (substring_mid (pre ++ pat) post "") as M.
    now rewrite str_app_nil_r in M.
Qed.

Lemma index_app_head (h rest : string) : String.index 0 h (h ++ rest) = Some 0.
Proof.
  destruct (h ++ rest) as [|b s] eqn:E.
  - destruct h; [reflexivity|discriminate].
  - assert (Hp : prefix h (h ++ rest) = true)
      by (apply prefix_correct; exact (substring_mid "" h rest)).
    rewrite E in Hp.
    change (String.index 0 h (String b s)) with
      (if prefix h (String b s) then Some 0
       else match String.index 0 h s with Some n => Some (S n) | None => None end).
    now rewrite Hp.
Qed.

Lemma js_replace_head h rest rep : js_replace (h ++ rest) h rep = rep ++ rest.
Proof.
  destruct (js_replace_at (h ++ rest) h rep 0 (index_app_head h rest))
    as (pre & post & Hs & Hl & ->).
  destruct pre; [|discriminate]. simpl in Hs |- *.
  apply str_app_inv_head in Hs. now subst.
Qed.

End Strings.

(** The display path of a directory under the home directory starts with
    [~] followed by the rest of its path. *)
Theorem nice_path_home_prefix HOME USERPROFILE rest :
  nice_path HOME USERPROFILE (getHomeDirectory HOME USERPROFILE ++ rest)
  = "~" ++ rest.
Proof. unfold nice_path. apply js_replace_head. Qed.

(** With neither [HOME] nor [USERPROFILE] set to a non-empty string the
    home directory is [""], which [replace] finds at position 0: every
    display path gets a [~] put in front of it. *)
Theorem nice_path_no_home HOME USERPROFILE dir :
  (HOME = None \/ HOME = Some "") -> (USERPROFILE = None \/ USERPROFILE = Some "") ->
  nice_path HOME USERPROFILE dir = "~" ++ dir.
Proof.
  intros Hh Hu.
  assert (E : getHomeDirectory HOME USERPROFILE = "")
    by (destruct Hh as [->| ->], Hu as [->| ->]; reflexivity).
  unfold nice_path. rewrite E. exact (js_replace_head "" dir "~").
Qed.

(** The display path replaces at most one occurrence of the home directory,
    the leftmost one, wherever it lies in the path (not only at its start),
    and leaves the path unchanged when the home directory does not occur. *)
Theorem nice_path_leftmost HOME USERPROFILE dir :
  let h := getHomeDirectory HOME USERPROFILE in
  (nice_path HOME USERPROFILE dir = dir /\ forall pre post, dir <> pre ++ h ++ post)
  \/ (exists pre post, dir = pre ++ h ++ post
        /\ nice_path HOME USERPROFILE dir = pre ++ "~" ++ post
        /\ forall pre' post', dir = pre' ++ h ++ post' ->
             String.length pre <= String.length pre').
Proof.
  intros h. unfold nice_path. fold h.
  destruct (String.index 0 h dir) as [i|] eqn:Hi.
  - right. destruct (js_replace_at dir h "~" i Hi) as (pre & post & Hs & Hl & Hr).
    exists pre, post. split; [exact Hs|]. split; [exact Hr|].
    intros pre' post' Hs'. destruct (Nat.lt_ge_cases (String.length pre') i) as [Hlt|Hge];
      [|lia].
    exfalso. apply (index_correct2 0 i h dir Hi (String.length pre') (Nat.le_0_l _) Hlt).
    rewrite Hs'. apply substring_mid.
  - left. split; [unfold js_replace; now rewrite Hi|].
    intros pre post Hs.
    assert (Hne : h <> ""%string)
      by (intros E; rewrite E in Hi; destruct dir; simpl in Hi; discriminate).
    apply (index_correct3 0 (String.length pre) h dir Hi Hne (Nat.le_0_l _)).
    rewrite Hs. apply substring_mid.
Qed.

(** ** Readable trees log nothing *)

Section Clean.

Lemma clean_cons nm c r :
  clean (NDir (Some ((nm, c) :: r))) = clean c && clean (NDir (Some r)).
Proof. reflexivity. Qed.

Lemma gds_clean : forall n p lg,
  clean n = true -> is_dir n = true -> snd (getDirectorySize p n lg) = lg.
Proof.
  induction n as [s| |files Hf] using node_ind'; intros p lg Hc Hd;
    try discriminate.
  rewrite gds_dir. generalize 0 as size. revert lg Hc.
  induction Hf as [|[nm c] r Hc' Hr IH]; intros lg Hcl size; [reflexivity|].
  rewrite clean_cons in Hcl. apply andb_prop in Hcl as [H1 H2].
  destruct c as [[s|]|x]; cbn [snd] in Hc'.
  - rewrite gds_loop_file. now apply IH.
  - discriminate.
  - rewrite gds_loop_dir.
    pose proof (Hc' (join p nm) lg H1 eq_refl) as E.
    destruct (getDirectorySize (join p nm) (NDir x) lg) as [s lg'].
    simpl in E. subst lg'. now apply IH.
Qed.

End Clean.

(** A directory whose subtree can be listed and [stat]ed throughout is
    measured without any [Error reading directory] line. *)
Theorem getDirectorySize_clean_silent p files lg :
  clean (NDir (Some files)) = true ->
  snd (getDirectorySize p (NDir (Some files)) lg) = lg.
Proof. intros Hc. now apply gds_clean. Qed.

(** Scanning a directory whose subtree can be listed and [stat]ed throughout
    reports no error at all: neither [Error searching] nor, while measuring
    a match, [Error reading directory]. *)
Theorem scan_clean_silent : forall root sp,
  clean root = true -> is_dir root = true ->
  log (findBuildDirectories sp root emptySt) = [].
Proof.
  induction root as [s| |files Hf] using node_ind'; intros sp Hc Hd;
    try discriminate.
  rewrite fbd_dir, fbd_loop_fold.
  assert (Hst : log (add_visit sp emptySt) = []) by reflexivity.
  revert Hst. generalize (add_visit sp emptySt) as st.
  assert (Hall : forall st, log st = [] -> forall l,
            incl l files -> clean (NDir (Some l)) = true ->
            log (fold_left (fun st e => fbd_step sp (NDir (Some files)) e st) l st) = []).
  { intros st Hst l. revert st Hst.
    induction l as [|[nm c] r IH]; intros st Hst Hin Hcl; [exact Hst|].
    rewrite clean_cons in Hcl. apply andb_prop in Hcl as [H1 H2]. simpl.
    apply IH; [|intros e He; apply Hin; now right|exact H2].
    assert (Hc' : forall sp', clean c = true -> is_dir c = true ->
                  log (findBuildDirectories sp' c emptySt) = [])
      by (rewrite Forall_forall in Hf; exact (Hf (nm, c) (Hin _ (or_introl eq_refl)))).
    unfold fbd_step. destruct c as [s|x]; [exact Hst|].
    assert (Hrm : forall t, log (record_match sp (join sp nm) (NDir x) t st) = []).
    { intros t. unfold record_match.
      pose proof (gds_clean (NDir x) (join sp nm) (log st) H1 eq_refl) as E.
      destruct (getDirectorySize (join sp nm) (NDir x) (log st)) as [sz lg].
      simpl in E |- *. congruence. }
    repeat match goal with
           | |- context [if ?b then _ else _] => destruct b
           end; try apply Hrm; try exact Hst.
    rewrite fbd_frame. unfold st_app. cbn [log]. rewrite Hst, (Hc' _ H1 eq_refl). reflexivity. }
  intros st Hst. apply Hall; [exact Hst|intros e He; exact He|exact Hc].
Qed.

(** ** Witnesses of the properties above *)

Lemma scan_complete_witness :
  let root := e2e_root false false (Some 5) in
  let l := [("Cargo.toml", NFile (Some 5));
            ("target", NDir (Some [("app", NFile (Some 20))]))] in
  dir_at root ["projB"] l /\ Forall (fun s => ordinary s = true) ["projB"] /\
  (In (app ["home"] ["projB"]) (walk ["home"] root)
   /\ (forall x, In ("node_modules", NDir x) l ->
         In (mkProjectInfo (app ["home"] ["projB"]) (dsize (NDir x)) TNode)
            (scan ["home"] root))
   /\ (forall x, In ("target", NDir x) l -> In "Cargo.toml" (map fst l) ->
         In (mkProjectInfo (app ["home"] ["projB"]) (dsize (NDir x)) TRust)
            (scan ["home"] root))).
Proof.
  intros root l.
  assert (Hd : dir_at root ["projB"] l)
    by (apply dir_below with (c := projB false (Some 5));
        [cbn; tauto | apply dir_here]).
  assert (Hq : Forall (fun s => ordinary s = true) ["projB"])
    by (constructor; [reflexivity | constructor]).
  split; [exact Hd|]. split; [exact Hq|].
  exact (scan_complete root ["projB"] l ["home"] Hd Hq).
Defined.


Lemma delete_paths_disjoint_witness :
  let root := e2e_root false false (Some 5) in
  let r := mkProjectInfo ["home"; "projB"] 20 TRust in
  wf root = true /\ In r (scan ["home"] root) /\
  is_prefix (deleteBuildDirectory_path (pi_path r) (pi_type r))
            (deleteBuildDirectory_path (pi_path r) (pi_type r)) /\ r = r.
Proof.
  intros root r.
  assert (Hw : wf root = true) by (vm_compute; reflexivity).
  assert (Hr : In r (scan ["home"] root)) by (vm_compute; tauto).
  assert (Hp : is_prefix (deleteBuildDirectory_path (pi_path r) (pi_type r))
                         (deleteBuildDirectory_path (pi_path r) (pi_type r)))
    by (exists []; now rewrite app_nil_r).
  split; [exact Hw|]. split; [exact Hr|]. split; [exact Hp|].
  exact (delete_paths_disjoint ["home"] root r r Hw Hr Hr Hp).
Defined.

Lemma getDirectorySize_stat_failure_witness :
  let done := [("a.txt", NFile (Some 100)); ("sub", NDir (Some [("c.txt", NFile (Some 50))]))] in
  let rest := [("b.txt", NFile (Some 250))] in
  Forall stat_ok done /\
  getDirectorySize ["home"] (NDir (Some (app done (("bad", NFile None) :: rest)))) []
  = (fst (getDirectorySize ["home"] (NDir (Some done)) []),
     app (snd (getDirectorySize ["home"] (NDir (Some done)) [])) [ErrReading ["home"]])
  /\ fst (getDirectorySize ["home"] (NDir (Some done)) [])
     = list_sum (map (child_size ["home"]) done).
Proof.
  intros done rest.
  assert (Hok : Forall stat_ok done)
    by (repeat constructor; unfold stat_ok; simpl; discriminate).
  split; [exact Hok|].
  exact (getDirectorySize_stat_failure ["home"] done "bad" rest [] Hok).
Defined.

Lemma nice_path_no_home_witness :
  ((None : option string) = None \/ None = Some "") /\
  (Some "" = None \/ Some "" = Some "") /\
  nice_path None (Some "") "/srv/app" = "~" ++ "/srv/app".
Proof.
  assert (Hh : (None : option string) = None \/ None = Some "") by now left.
  assert (Hu : Some "" = None \/ Some "" = Some "") by now right.
  split; [exact Hh|]. split; [exact Hu|].
  exact (nice_path_no_home None (Some "") "/srv/app" Hh Hu).
Defined.

Lemma getDirectorySize_clean_silent_witness :
  let files := [("a.txt", NFile (Some 100)); ("b.txt", NFile (Some 250));
                ("sub", NDir (Some [("c.txt", NFile (Some 50))]))] in
  clean (NDir (Some files)) = true /\
  snd (getDirectorySize ["home"] (NDir (Some files)) []) = [].
Proof.
  intros files.
  assert (Hc : clean (NDir (Some files)) = true) by reflexivity.
  split; [exact Hc|].
  exact (getDirectorySize_clean_silent ["home"] files [] Hc).
Defined.

Lemma scan_clean_silent_witness :
  clean (e2e_root false false (Some 5)) = true /\
  is_dir (e2e_root false false (Some 5)) = true /\
  log (findBuildDirectories ["home"] (e2e_root false false (Some 5)) emptySt) = [].
Proof.
  assert (Hc : clean (e2e_root false false (Some 5)) = true) by (vm_compute; reflexivity).
  assert (Hd : is_dir (e2e_root false false (Some 5)) = true) by reflexivity.
  split; [exact Hc|]. split; [exact Hd|].
  exact (scan_clean_silent (e2e_root false false (Some 5)) ["home"] Hc Hd).
Defined.
